(** * simple-todo: the Todo record, its input schemas and its handlers

    A shallow embedding of the server side of the application:
    - [server/src/schema.ts]: the zod schemas of the Todo record and of the
      inputs of the remote procedures;
    - [server/src/handlers/get_todo.ts] and [server/src/handlers/update_todo.ts]:
      the two handlers whose code is among the sources;
    - the helper [createTestTodo] of [server/src/tests/update_todo.test.ts];
    - [client/src/App.tsx]: the guard of the creation form.

    JavaScript strings are embedded as [string]: a sequence of code units,
    here the code units below 256.  Numbers that are ids are embedded as [Z]
    (the column is an integer key), and a [Date] as its [getTime()], a [Z]
    of milliseconds. *)

From Stdlib Require Import ZArith Lia.
From stdpp Require Import base option list gmap strings sorting.

Open Scope Z_scope.

(** ** Values received at the RPC boundary *)

Inductive jsval : Type :=
  | JUndefined
  | JNull
  | JBool (b : bool)
  | JNum (n : Z)
  | JStr (s : string).

(** [o.k] on a received object: a key that is not there reads [undefined]. *)
Definition prop (o : gmap string jsval) (k : string) : jsval :=
  default JUndefined (o !! k).

(** ** zod: the part of the library that [schema.ts] uses *)

Inductive issue : Type :=
  | invalid_type (path : string)
  | too_small (path : string) (message : string).

Inductive parsed (A : Type) : Type :=
  | Success (data : A)
  | Failure (issues : list issue).
Arguments Success {A} data.
Arguments Failure {A} issues.

Definition zod (A : Type) : Type := string → jsval → parsed A.

Definition parsed_map {A B} (f : A → B) (p : parsed A) : parsed B :=
  match p with
  | Success a => Success (f a)
  | Failure iss => Failure iss
  end.

Module z.

Definition string : zod String.string := λ path v,
  match v with
  | JStr s => Success s
  | _ => Failure [invalid_type path]
  end.

Definition number : zod Z := λ path v,
  match v with
  | JNum n => Success n
  | _ => Failure [invalid_type path]
  end.

Definition boolean : zod bool := λ path v,
  match v with
  | JBool b => Success b
  | _ => Failure [invalid_type path]
  end.

(** [.min(n, message)]: an issue when [data.length < n]. *)
Definition min (n : nat) (message : String.string)
    (inner : zod String.string) : zod String.string := λ path v,
  match inner path v with
  | Success s =>
      if (String.length s <? n)%nat then Failure [too_small path message]
      else Success s
  | Failure iss => Failure iss
  end.

(** [.nullable()]: [null] is accepted and kept as [null]. *)
Definition nullable {A} (inner : zod A) : zod (option A) := λ path v,
  match v with
  | JNull => Success None
  | _ => parsed_map Some (inner path v)
  end.

(** [.optional()]: [undefined] is accepted and kept as [undefined]. *)
Definition optional {A} (inner : zod A) : zod (option A) := λ path v,
  match v with
  | JUndefined => Success None
  | _ => parsed_map Some (inner path v)
  end.

(** A key of [z.object({...})]: the issues of all keys are collected. *)
Definition field {A B} (o : gmap String.string jsval) (k : String.string)
    (s : zod A) (rest : parsed (A → B)) : parsed B :=
  match rest, s k (prop o k) with
  | Success f, Success a => Success (f a)
  | Success _, Failure iss => Failure iss
  | Failure iss, Success _ => Failure iss
  | Failure iss1, Failure iss2 => Failure (iss1 ++ iss2)
  end.

End z.

(** ** The data model ([schema.ts]) *)

Module Todo.
Record t : Type := mk {
  id : Z;
  title : string;
  description : option string;   (* [null] is [None] *)
  completed : bool;
  created_at : Z;
  updated_at : Z
}.
End Todo.

(** An optional, nullable key has three states: omitted ([None]), [null]
    ([Some None]) and a value ([Some (Some s)]). *)
Module CreateTodoInput.
Record t : Type := mk {
  title : string;
  description : option (option string)
}.
End CreateTodoInput.

Module UpdateTodoInput.
Record t : Type := mk {
  id : Z;
  title : option string;
  description : option (option string);
  completed : option bool
}.
End UpdateTodoInput.

Module DeleteTodoInput.
Record t : Type := mk { id : Z }.
End DeleteTodoInput.

Module GetTodoInput.
Record t : Type := mk { id : Z }.
End GetTodoInput.

Definition createTodoInputSchema (o : gmap string jsval)
    : parsed CreateTodoInput.t :=
  z.field o "description" (z.optional (z.nullable z.string))
    (z.field o "title" (z.min 1 "Title is required" z.string)
      (Success CreateTodoInput.mk)).

Definition updateTodoInputSchema (o : gmap string jsval)
    : parsed UpdateTodoInput.t :=
  z.field o "completed" (z.optional z.boolean)
    (z.field o "description" (z.optional (z.nullable z.string))
      (z.field o "title" (z.optional (z.min 1 "Title is required" z.string))
        (z.field o "id" z.number
          (Success UpdateTodoInput.mk)))).

Definition deleteTodoInputSchema (o : gmap string jsval)
    : parsed DeleteTodoInput.t :=
  z.field o "id" z.number (Success DeleteTodoInput.mk).

Definition getTodoInputSchema (o : gmap string jsval)
    : parsed GetTodoInput.t :=
  z.field o "id" z.number (Success GetTodoInput.mk).

(** ** [String.prototype.trim], as the creation form of [App.tsx] uses it *)

(** White space and line terminators among the code units below 256:
    TAB, LF, VT, FF, CR, SPACE and NBSP. *)
Definition is_white_space (c : Ascii.ascii) : bool :=
  let n := Ascii.nat_of_ascii c in
  bool_decide (n ∈ [9; 10; 11; 12; 13; 32; 160]%nat).

Fixpoint trimStart (s : string) : string :=
  match s with
  | String c s' => if is_white_space c then trimStart s' else s
  | EmptyString => EmptyString
  end.

Fixpoint trimEnd (s : string) : string :=
  match s with
  | String c s' =>
      match trimEnd s' with
      | EmptyString => if is_white_space c then EmptyString else String c EmptyString
      | s'' => String c s''
      end
  | EmptyString => EmptyString
  end.

Definition trim (s : string) : string := trimEnd (trimStart s).

(** [handleSubmit] goes on past its guard [if (!formData.title.trim()) return;]
    exactly when the trimmed title is a non-empty string. *)
Definition handleSubmit_submits (formData : CreateTodoInput.t) : bool :=
  negb (String.eqb (trim (CreateTodoInput.title formData)) "").

(** ** The world the handlers run in *)

(** A statement sent to the database. *)
Inductive statement : Type :=
  | SelectWhereId (i : Z)
  | SelectOrdered
  | InsertReturning (title : string) (description : option string) (completed : bool)
  | DeleteWhereId (i : Z).

Inductive error : Type :=
  | StoreFailure
  | ValidationError (issues : list issue).

(** - [rows] of the table [todos], in insertion order, and [next_id],
      the next value of the sequence behind the key;
    - [online]: whether the database answers; a statement sent to a
      database that does not answer makes [execute()] throw;
    - [journal]: every statement sent to the database, latest first;
    - [clock]: the current time, in milliseconds;
    - [console]: the lines written by [console.error], latest first. *)
Record world : Type := mkWorld {
  rows : list Todo.t;
  next_id : Z;
  online : bool;
  journal : list statement;
  clock : Z;
  console : list string
}.

Definition set_rows (f : list Todo.t → list Todo.t) (w : world) : world :=
  mkWorld (f (rows w)) (next_id w) (online w) (journal w) (clock w) (console w).
Definition set_next_id (f : Z → Z) (w : world) : world :=
  mkWorld (rows w) (f (next_id w)) (online w) (journal w) (clock w) (console w).
Definition set_journal (f : list statement → list statement) (w : world) : world :=
  mkWorld (rows w) (next_id w) (online w) (f (journal w)) (clock w) (console w).
Definition set_clock (f : Z → Z) (w : world) : world :=
  mkWorld (rows w) (next_id w) (online w) (journal w) (f (clock w)) (console w).
Definition set_console (f : list string → list string) (w : world) : world :=
  mkWorld (rows w) (next_id w) (online w) (journal w) (clock w) (f (console w)).
Definition set_online (b : bool) (w : world) : world :=
  mkWorld (rows w) (next_id w) b (journal w) (clock w) (console w).

(** The database after [createDB]: an empty table and a fresh sequence. *)
Definition createDB (now : Z) : world := mkWorld [] 1 true [] now [].

(** ** Promises: a computation returns or throws, and changes the world *)

Inductive completion (A : Type) : Type :=
  | Return (a : A)
  | Throw (e : error).
Arguments Return {A} a.
Arguments Throw {A} e.

Definition promise (A : Type) : Type := world → completion A * world.

Definition resolve {A} (a : A) : promise A := λ w, (Return a, w).
Definition throw {A} (e : error) : promise A := λ w, (Throw e, w).

(** [const x = await p; k x] *)
Definition await {A B} (p : promise A) (k : A → promise B) : promise B := λ w,
  match p w with
  | (Return a, w') => k a w'
  | (Throw e, w') => (Throw e, w')
  end.

(** [try { p } catch (error) { h error }] *)
Definition try_catch {A} (p : promise A) (h : error → promise A) : promise A := λ w,
  match p w with
  | (Return a, w') => (Return a, w')
  | (Throw e, w') => h e w'
  end.

Notation "'let!' x ':=' p 'in' k" := (await p (λ x, k))
  (at level 10, x name, p at level 100, k at level 200, only parsing).
Notation "p ';;!' k" := (await p (λ _, k))
  (at level 100, k at level 200, right associativity, only parsing).

Definition console_error (line : string) : promise () := λ w,
  (Return (), set_console (cons line) w).

(** [await new Promise(resolve => setTimeout(resolve, ms))]: at least [ms]
    milliseconds go by; the model lets exactly [ms] go by. *)
Definition sleep (ms : Z) : promise () := λ w,
  (Return (), set_clock (λ now, now + ms) w).

(** ** The table [todos] and its queries *)

(** [execute()]: the statement is sent, and answered if the database is
    there. *)
Definition execute {A} (st : statement) (answer : promise A) : promise A := λ w,
  let w := set_journal (cons st) w in
  if online w then answer w else (Throw StoreFailure, w).

(** Modelled from the spec: the type of the key column of [todosTable]
    ([db/schema.ts], which is not among the sources).  Section 3 makes [id]
    a system-generated integer and section 6 an auto-generated key: a
    [serial] column, whose values are the 4-byte integers. *)
Definition int4 (i : Z) : bool := (-2147483648 <=? i) && (i <=? 2147483647).

(** [db.select().from(todosTable).where(eq(todosTable.id, i)).execute()]:
    the database compares the key with the parameter as a 4-byte integer,
    and rejects the query when the parameter is not one.  Ids are integers
    here, so the parameter that fails is the one out of range. *)
Definition select_where_id (i : Z) : promise (list Todo.t) :=
  execute (SelectWhereId i)
    (λ w, if int4 i then (Return (filter (λ t, Todo.id t = i) (rows w)), w)
          else (Throw StoreFailure, w)).

(** Modelled from the spec: the table [todosTable] of [db/schema.ts], which
    is not among the sources.  Section 3: [id] is "system-generated, unique,
    strictly increasing assignment order", [created_at] is "set once at
    creation" and [updated_at] is "set at creation"; the tests insert a
    title, a description and a flag, and read the key and both timestamps
    from the returned row.
    [(await db.insert(todosTable).values({title, description, completed})
       .returning().execute())[0]]: the one row that was inserted. *)
Definition insert_returning (title : string) (description : option string)
    (completed : bool) : promise Todo.t :=
  execute (InsertReturning title description completed)
    (λ w,
      let row := Todo.mk (next_id w) title description completed (clock w) (clock w) in
      (Return row, set_next_id (λ n, n + 1) (set_rows (λ l, l ++ [row]) w))).

(** ** The handlers whose code is among the sources *)

(** [handlers/get_todo.ts] *)
Definition getTodo (input : GetTodoInput.t) : promise (option Todo.t) :=
  try_catch
    (let! result := select_where_id (GetTodoInput.id input) in
     if (length result =? 0)%nat then resolve None
     else resolve (head result))
    (λ error, console_error "Get todo failed:" ;;! throw error).

(** [handlers/update_todo.ts] *)
Definition updateTodo (input : UpdateTodoInput.t) : promise (option Todo.t) :=
  resolve None.

(** [input.description || null]: [undefined], [null] and the empty string
    are falsy. *)
Definition or_null (description : option (option string)) : option string :=
  match description with
  | Some (Some EmptyString) => None
  | Some (Some s) => Some s
  | Some None => None
  | None => None
  end.

(** [createTestTodo] of [tests/update_todo.test.ts] *)
Definition createTestTodo (input : CreateTodoInput.t) : promise Todo.t :=
  insert_returning (CreateTodoInput.title input)
    (or_null (CreateTodoInput.description input)) false.

(** ** The handlers whose code is not among the sources *)

(** Modelled from the spec: the handler of [handlers/create_todo.ts], whose
    tests alone are among the sources.  Section 4.1, create: "assigns a new
    unique id, sets [completed=false], sets [created_at = updated_at = now()].
    If [description] is omitted or empty, persists it as the explicit absence
    value (null), never as an empty string.  Result: the fully populated Todo
    record as persisted.  Side effect: one new row created in the backing
    store."  The handler receives a [CreateTodoInput], the value that
    [createTodoInputSchema] has validated. *)
Definition createTodo (input : CreateTodoInput.t) : promise Todo.t :=
  insert_returning (CreateTodoInput.title input)
    (or_null (CreateTodoInput.description input)) false.

(** Newest-created first; of two rows created at the same time, the one
    with the greater id first. *)
Definition newer_first (a b : Todo.t) : Prop :=
  Todo.created_at b < Todo.created_at a
  ∨ (Todo.created_at a = Todo.created_at b ∧ Todo.id b ≤ Todo.id a).

Global Instance newer_first_dec a b : Decision (newer_first a b).
Proof. unfold newer_first. apply _. Defined.

(** Modelled from the spec: the handler of [handlers/get_todos.ts], whose
    tests alone are among the sources.  Section 4.1, list: "all Todos,
    ordered newest-created first (descending by [created_at]; ties broken by
    descending [id] ...).  Empty store yields an empty sequence, not an
    error." *)
Definition getTodos : promise (list Todo.t) :=
  execute SelectOrdered
    (λ w, (Return (merge_sort newer_first (rows w)), w)).

(** Modelled from the spec: the handler of [handlers/delete_todo.ts], whose
    tests alone are among the sources.  Section 4.1, delete: "[true] if a
    record was removed, [false] if no record matched [id]. ... removes exactly
    one row when it returns [true]; removes none otherwise"; section 2 names
    the query: "delete-by-id-returning-count". *)
Definition deleteTodo (input : DeleteTodoInput.t) : promise bool :=
  let i := DeleteTodoInput.id input in
  let! count :=
    execute (DeleteWhereId i)
      (λ w, (Return (length (filter (λ t, Todo.id t = i) (rows w))),
             set_rows (filter (λ t, Todo.id t ≠ i)) w)) in
  resolve (0 <? count)%nat.

(** ** The update that section 4.1 describes, to compare [updateTodo] with *)

(** "a field absent from the patch leaves the stored value untouched; a field
    present with an explicit null (for [description] only) clears it; a field
    present with a value replaces the stored value"; "always advances
    [updated_at] to the current time". *)
Definition apply_patch (now : Z) (patch : UpdateTodoInput.t) (t : Todo.t) : Todo.t :=
  Todo.mk (Todo.id t)
    (default (Todo.title t) (UpdateTodoInput.title patch))
    (default (Todo.description t) (UpdateTodoInput.description patch))
    (default (Todo.completed t) (UpdateTodoInput.completed patch))
    (Todo.created_at t)
    now.

(** "Result: the updated Todo, or the not-found signal if [id] does not
    match any record." *)
Definition updateTodo_spec (input : UpdateTodoInput.t) : promise (option Todo.t) := λ w,
  if online w then
    let i := UpdateTodoInput.id input in
    let patched t := if decide (Todo.id t = i) then apply_patch (clock w) input t else t in
    let w' := set_rows (fmap patched) w in
    (Return (head (filter (λ t, Todo.id t = i) (rows w'))), w')
  else (Throw StoreFailure, w).

(** ** The remote procedures *)

(** Modelled from the spec: the RPC boundary of [server/src/index.ts], which
    is not among the sources.  Section 6: each procedure takes "a single
    structured argument"; section 7: a validation error is "surfaced to the
    caller as a rejected request".  The argument is parsed with the schema of
    the procedure, and the handler runs on the parsed value only. *)
Definition procedure {I O} (schema : gmap string jsval → parsed I)
    (handler : I → promise O) (raw : gmap string jsval) : promise O :=
  match schema raw with
  | Success input => handler input
  | Failure issues => throw (ValidationError issues)
  end.

Module trpc.
Definition createTodo := procedure createTodoInputSchema createTodo.
Definition getTodo := procedure getTodoInputSchema getTodo.
Definition updateTodo := procedure updateTodoInputSchema updateTodo.
Definition deleteTodo := procedure deleteTodoInputSchema deleteTodo.
Definition getTodos : promise (list Todo.t) := getTodos.
End trpc.

(** ** The table and its key *)

Definition ids (w : world) : list Z := Todo.id <$> rows w.

(** What the primary key and its sequence keep true of the table: no two
    rows share an id, and every id was drawn from the sequence. *)
Definition keyed (w : world) : Prop :=
  NoDup (ids w) ∧ Forall (λ t, Todo.id t < next_id w) (rows w).

Definition with_id (i : Z) (l : list Todo.t) : list Todo.t :=
  filter (λ t, Todo.id t = i) l.

Definition timestamps_ordered (w : world) : Prop :=
  Forall (λ t, Todo.created_at t ≤ Todo.updated_at t) (rows w).

(** ** The worlds that can be reached *)

Inductive request : Type :=
  | CreateTodo (raw : gmap string jsval)
  | GetTodo (raw : gmap string jsval)
  | GetTodos
  | UpdateTodo (raw : gmap string jsval)
  | DeleteTodo (raw : gmap string jsval).

(** The world after a request has been served; the answer goes to the
    caller. *)
Definition serve (r : request) (w : world) : world :=
  match r with
  | CreateTodo raw => snd (trpc.createTodo raw w)
  | GetTodo raw => snd (trpc.getTodo raw w)
  | GetTodos => snd (trpc.getTodos w)
  | UpdateTodo raw => snd (trpc.updateTodo raw w)
  | DeleteTodo raw => snd (trpc.deleteTodo raw w)
  end.

(** From a fresh database, requests are served, the tests insert rows of
    their own, time goes by, and the database goes away and comes back. *)
Inductive reachable : world → Prop :=
  | reachable_createDB now : reachable (createDB now)
  | reachable_serve r w : reachable w → reachable (serve r w)
  | reachable_insert title description completed w :
      reachable w → reachable (snd (insert_returning title description completed w))
  | reachable_sleep ms w : 0 ≤ ms → reachable w → reachable (snd (sleep ms w))
  | reachable_online b w : reachable w → reachable (set_online b w).

(** ** Inputs and tests used below *)

(** The object literal with the given keys. *)
Definition obj (l : list (string * jsval)) : gmap string jsval := list_to_map l.

(** A value that [z.string().nullable().optional()] accepts. *)
Definition description_typed (v : jsval) : Prop :=
  match v with
  | JUndefined | JNull | JStr _ => True
  | _ => False
  end.

(** A value that [z.boolean().optional()] accepts. *)
Definition completed_typed (v : jsval) : Prop :=
  match v with
  | JUndefined | JBool _ => True
  | _ => False
  end.

(** What [description_typed] values parse to. *)
Definition description_of (v : jsval) : option (option string) :=
  match v with
  | JStr s => Some (Some s)
  | JNull => Some None
  | _ => None
  end.

Definition completed_of (v : jsval) : option bool :=
  match v with
  | JBool b => Some b
  | _ => None
  end.

(** "should set description to null" of [tests/update_todo.test.ts], up to
    its expectations: the created row and the result of the update. *)
Definition test_set_description_to_null : promise (Todo.t * option Todo.t) :=
  let! todo := createTestTodo
    (CreateTodoInput.mk "Test Todo" (Some (Some "Original description"))) in
  let! result := updateTodo
    (UpdateTodoInput.mk (Todo.id todo) None (Some None) None) in
  resolve (todo, result).

(** "should always update timestamp even with no other changes" of
    [tests/update_todo.test.ts], up to its expectations. *)
Definition test_always_update_timestamp : promise (Todo.t * option Todo.t) :=
  let! todo := createTestTodo (CreateTodoInput.mk "Test Todo" None) in
  sleep 10 ;;!
  let! result := updateTodo (UpdateTodoInput.mk (Todo.id todo) None None None) in
  resolve (todo, result).

(** The same two tests against the update of section 4.1. *)
Definition spec_set_description_to_null : promise (Todo.t * option Todo.t) :=
  let! todo := createTestTodo
    (CreateTodoInput.mk "Test Todo" (Some (Some "Original description"))) in
  let! result := updateTodo_spec
    (UpdateTodoInput.mk (Todo.id todo) None (Some None) None) in
  resolve (todo, result).

Definition spec_always_update_timestamp : promise (Todo.t * option Todo.t) :=
  let! todo := createTestTodo (CreateTodoInput.mk "Test Todo" None) in
  sleep 10 ;;!
  let! result := updateTodo_spec (UpdateTodoInput.mk (Todo.id todo) None None None) in
  resolve (todo, result).

(** ** The client ([client/src/App.tsx]) *)

(** The state of the component [App]: its four [useState] cells. *)
Module App.
Record t : Type := mk {
  todos : list Todo.t;
  isLoading : bool;
  isCreating : bool;
  formData : CreateTodoInput.t
}.

(** The initial values of the cells. *)
Definition initial : t := mk [] false false (CreateTodoInput.mk "" (Some None)).
End App.

(** A page in a browser: the component, the browser's console (latest line
    first) and the server the page talks to. *)
Record session : Type := mkSession {
  app : App.t;
  browser_console : list string;
  server : world
}.

(** An async function of the page: it returns or throws, and changes the
    session. *)
Definition task (A : Type) : Type := session → completion A * session.

Definition task_return {A} (a : A) : task A := λ s, (Return a, s).

Definition task_await {A B} (p : task A) (k : A → task B) : task B := λ s,
  match p s with
  | (Return a, s') => k a s'
  | (Throw e, s') => (Throw e, s')
  end.

Notation "'let*' x ':=' p 'in' k" := (task_await p (λ x, k))
  (at level 10, x name, p at level 100, k at level 200, only parsing).
Notation "p ';;*' k" := (task_await p (λ _, k))
  (at level 100, k at level 200, right associativity, only parsing).

(** [try { p } catch (error) { h error }] *)
Definition task_catch {A} (p : task A) (h : error → task A) : task A := λ s,
  match p s with
  | (Return a, s') => (Return a, s')
  | (Throw e, s') => h e s'
  end.

(** [try { p } finally { f }]: [f] runs whether [p] returned or threw, and
    what [p] did stands unless [f] throws. *)
Definition task_finally {A} (p : task A) (f : task ()) : task A := λ s,
  match p s with
  | (r, s') =>
      match f s' with
      | (Return _, s'') => (r, s'')
      | (Throw e, s'') => (Throw e, s'')
      end
  end.

Definition getState : task App.t := λ s, (Return (app s), s).

Definition setState (f : App.t → App.t) : task () := λ s,
  (Return (), mkSession (f (app s)) (browser_console s) (server s)).

Definition setTodos (f : list Todo.t → list Todo.t) : task () :=
  setState (λ a, App.mk (f (App.todos a)) (App.isLoading a) (App.isCreating a)
                   (App.formData a)).
Definition setIsLoading (b : bool) : task () :=
  setState (λ a, App.mk (App.todos a) b (App.isCreating a) (App.formData a)).
Definition setIsCreating (b : bool) : task () :=
  setState (λ a, App.mk (App.todos a) (App.isLoading a) b (App.formData a)).
Definition setFormData (f : CreateTodoInput.t → CreateTodoInput.t) : task () :=
  setState (λ a, App.mk (App.todos a) (App.isLoading a) (App.isCreating a)
                   (f (App.formData a))).

(** [console.error] of the page *)
Definition browser_error (line : string) : task () := λ s,
  (Return (), mkSession (app s) (cons line (browser_console s)) (server s)).

(** [trpc.<procedure>.mutate(...)] and [.query()]: the procedure runs on the
    server, and what it returns or throws comes back to the page.  The
    network between the two is taken to deliver. *)
Definition remote {A} (p : promise A) : task A := λ s,
  match p (server s) with
  | (r, w) => (r, mkSession (app s) (browser_console s) w)
  end.

(** The object that a [CreateTodoInput] of the page is, as it is sent: a
    key that is [undefined] is not sent. *)
Definition CreateTodoInput_object (input : CreateTodoInput.t) : gmap string jsval :=
  match CreateTodoInput.description input with
  | None => obj [("title", JStr (CreateTodoInput.title input))]
  | Some None =>
      obj [("title", JStr (CreateTodoInput.title input)); ("description", JNull)]
  | Some (Some d) =>
      obj [("title", JStr (CreateTodoInput.title input)); ("description", JStr d)]
  end.

(** [loadTodos] *)
Definition loadTodos : task () :=
  task_finally
    (task_catch
       (setIsLoading true ;;*
        let* result := remote trpc.getTodos in
        setTodos (λ _, result))
       (λ error, browser_error "Failed to load todos:"))
    (setIsLoading false).

(** [handleSubmit]; [e.preventDefault()] keeps the browser from loading
    another page and changes nothing of the session. *)
Definition handleSubmit : task () :=
  let* a := getState in
  let formData := App.formData a in
  if negb (handleSubmit_submits formData) then task_return ()
  else
    setIsCreating true ;;*
    task_finally
      (task_catch
         (let* response := remote (trpc.createTodo (CreateTodoInput_object formData)) in
          setTodos (λ prev, response :: prev) ;;*
          setFormData (λ _, CreateTodoInput.mk "" (Some None)))
         (λ error, browser_error "Failed to create todo:"))
      (setIsCreating false).

(** [handleToggleComplete] *)
Definition handleToggleComplete (todo : Todo.t) : task () :=
  task_catch
    (let* updatedTodo :=
       remote (trpc.updateTodo
                  (obj [("id", JNum (Todo.id todo));
                        ("completed", JBool (negb (Todo.completed todo)))])) in
     match updatedTodo with
     | Some updated =>
         setTodos (fmap (λ t, if decide (Todo.id t = Todo.id todo) then updated else t))
     | None => task_return ()
     end)
    (λ error, browser_error "Failed to update todo:").

(** [handleDelete] *)
Definition handleDelete (todoId : Z) : task () :=
  task_catch
    (let* success := remote (trpc.deleteTodo (obj [("id", JNum todoId)])) in
     if success : bool then setTodos (filter (λ t, Todo.id t ≠ todoId))
     else task_return ())
    (λ error, browser_error "Failed to delete todo:").

(** [completedCount] and [totalCount] *)
Definition completedCount (a : App.t) : Z :=
  Z.of_nat (length (filter (λ todo, Todo.completed todo = true) (App.todos a))).
Definition totalCount (a : App.t) : Z := Z.of_nat (length (App.todos a)).

(** The footer, shown when [todos.length > 0]. *)
Inductive footer : Type :=
  | AllCompleted
  | Remaining (n : Z) (noun : string).

Definition render_footer (a : App.t) : option footer :=
  if 0 <? Z.of_nat (length (App.todos a)) then
    Some (if (completedCount a =? totalCount a) && (0 <? totalCount a)
          then AllCompleted
          else Remaining (totalCount a - completedCount a)
                 (if totalCount a - completedCount a =? 1 then "task" else "tasks"))
  else None.

(** The "No tasks yet" card: [!isLoading && todos.length === 0]. *)
Definition render_empty (a : App.t) : bool :=
  negb (App.isLoading a) && (length (App.todos a) =? 0)%nat.

(** The text area shows [formData.description || '']. *)
Definition textarea_value (a : App.t) : string :=
  match CreateTodoInput.description (App.formData a) with
  | Some (Some d) => d
  | _ => ""
  end.

(** What the user does to the page.  The buttons of a card belong to a todo
    of the list. *)
Inductive event : Type :=
  | Mount
  | TitleChange (value : string)
  | DescriptionChange (value : string)
  | Submit
  | ToggleClick (todo : Todo.t)
  | DeleteClick (todoId : Z).

Definition dispatch (e : event) : task () :=
  match e with
  | Mount => loadTodos
  | TitleChange value =>
      setFormData (λ prev, CreateTodoInput.mk value (CreateTodoInput.description prev))
  | DescriptionChange value =>
      setFormData (λ prev, CreateTodoInput.mk (CreateTodoInput.title prev)
                             (Some (or_null (Some (Some value)))))
  | Submit => handleSubmit
  | ToggleClick todo => handleToggleComplete todo
  | DeleteClick todoId => handleDelete todoId
  end.

(** * Properties *)

Section table.
Implicit Types (l : list Todo.t) (t : Todo.t) (i : Z).

Lemma with_id_absent l i : i ∉ Todo.id <$> l → with_id i l = [].
Proof.
  unfold with_id. induction l as [|x l IH]; simpl; intros Hi; [done|].
  rewrite not_elem_of_cons in Hi. destruct Hi as [Hx Hl].
  rewrite filter_cons_False by congruence. auto.
Qed.

Lemma with_id_unique l t :
  NoDup (Todo.id <$> l) → t ∈ l → with_id (Todo.id t) l = [t].
Proof.
  unfold with_id. induction l as [|x l IH]; simpl; intros Hnd Ht.
  - by apply not_elem_of_nil in Ht.
  - apply NoDup_cons in Hnd as [Hx Hnd].
    apply elem_of_cons in Ht as [->|Ht].
    + rewrite filter_cons_True by done. f_equal. by apply with_id_absent.
    + rewrite filter_cons_False; [auto|].
      intros Heq. apply Hx. rewrite Heq. by apply list_elem_of_fmap_2.
Qed.



End table.

(** ** Running a statement *)

Lemma execute_online {A} st (answer : promise A) w :
  online w = true → execute st answer w = answer (set_journal (cons st) w).
Proof. unfold execute. simpl. by intros ->. Qed.

Lemma execute_offline {A} st (answer : promise A) w :
  online w = false →
  execute st answer w = (Throw StoreFailure, set_journal (cons st) w).
Proof. unfold execute. simpl. by intros ->. Qed.

Lemma getTodo_online i w :
  online w = true →
  int4 i = true →
  getTodo (GetTodoInput.mk i) w
  = (Return (head (with_id i (rows w))), set_journal (cons (SelectWhereId i)) w).
Proof.
  intros Hon Hi. unfold getTodo, try_catch, await, select_where_id. simpl.
  rewrite execute_online by done. rewrite Hi. simpl.
  fold (with_id i (rows w)). by destruct (with_id i (rows w)).
Qed.

Lemma getTodo_out_of_range i w :
  online w = true →
  int4 i = false →
  getTodo (GetTodoInput.mk i) w
  = (Throw StoreFailure,
     set_console (cons "Get todo failed:") (set_journal (cons (SelectWhereId i)) w)).
Proof.
  intros Hon Hi. unfold getTodo, try_catch, await, select_where_id. simpl.
  rewrite execute_online by done. by rewrite Hi.
Qed.

Lemma getTodo_offline i w :
  online w = false →
  getTodo (GetTodoInput.mk i) w
  = (Throw StoreFailure,
     set_console (cons "Get todo failed:") (set_journal (cons (SelectWhereId i)) w)).
Proof.
  intros Hoff. unfold getTodo, try_catch, await, select_where_id. simpl.
  by rewrite execute_offline by done.
Qed.

(** ** [getTodo] *)

(** C7, as it is stated, fails: 2147483648 is an id that
    [getTodoInputSchema] accepts and that no row has, and with the database
    answering [getTodo] does not return [null] for it: the query is
    rejected, and [getTodo] writes to the console and throws. *)
Lemma getTodo_not_found_thrown :
  getTodoInputSchema (obj [("id", JNum 2147483648)])
  = Success (GetTodoInput.mk 2147483648)
  ∧ online (createDB 1000) = true
  ∧ keyed (createDB 1000)
  ∧ (2147483648 ∉ ids (createDB 1000))
  ∧ trpc.getTodo (obj [("id", JNum 2147483648)]) (createDB 1000)
    = (Throw StoreFailure,
       mkWorld [] 1 true [SelectWhereId 2147483648] 1000 ["Get todo failed:"]).
Proof.
  split_and!; try reflexivity.
  - split; [apply NoDup_nil_2|apply Forall_nil_2].
  - apply not_elem_of_nil.
Qed.

(** C7, amended: with the database answering and for an id in the range of
    the key, [getTodo] returns the stored Todo that has the id when there
    is one, and [null] when there is none, and throws in neither case.  For
    an id outside the range it writes to the console and throws the error
    of the query, whether or not a row has the id.  In both cases it
    leaves the table as it is. *)
Theorem getTodo_found_or_null (i : Z) (w : world) :
  online w = true →
  keyed w →
  (int4 i = true →
     (∀ t, t ∈ rows w → Todo.id t = i →
        fst (getTodo (GetTodoInput.mk i) w) = Return (Some t))
     ∧ (i ∉ ids w → fst (getTodo (GetTodoInput.mk i) w) = Return None)
     ∧ (∀ e, fst (getTodo (GetTodoInput.mk i) w) ≠ Throw e))
  ∧ (int4 i = false →
       getTodo (GetTodoInput.mk i) w
       = (Throw StoreFailure,
          set_console (cons "Get todo failed:")
            (set_journal (cons (SelectWhereId i)) w)))
  ∧ rows (snd (getTodo (GetTodoInput.mk i) w)) = rows w.
Proof.
  intros Hon [Hnd _]. split_and!.
  - intros Hi. rewrite getTodo_online by done. simpl. split_and!.
    + intros t Ht <-. by rewrite with_id_unique.
    + intros Hni. by rewrite with_id_absent.
    + discriminate.
  - intros Hi. by apply getTodo_out_of_range.
  - destruct (int4 i) eqn:Hi.
    + by rewrite getTodo_online.
    + by rewrite getTodo_out_of_range.
Qed.

Lemma getTodo_found_or_null_witness :
  let w := snd (createTodo (CreateTodoInput.mk "Buy milk" None) (createDB 1000)) in
  online w = true
  ∧ keyed w
  ∧ int4 1 = true
  ∧ fst (getTodo (GetTodoInput.mk 1) w)
    = Return (Some (Todo.mk 1 "Buy milk" None false 1000 1000))
  ∧ fst (getTodo (GetTodoInput.mk 2) w) = Return None.
Proof.
  set (w := snd (createTodo (CreateTodoInput.mk "Buy milk" None) (createDB 1000))).
  assert (Hon : online w = true) by reflexivity.
  assert (Hk : keyed w).
  { split; [apply NoDup_singleton|]. apply Forall_singleton. simpl. lia. }
  split; [exact Hon|]. split; [exact Hk|]. split; [reflexivity|]. split.
  - apply (proj1 (getTodo_found_or_null 1 w Hon Hk) eq_refl); [|reflexivity].
    apply list_elem_of_singleton. reflexivity.
  - apply (proj1 (getTodo_found_or_null 2 w Hon Hk) eq_refl).
    intros Hin%list_elem_of_singleton. discriminate.
Defined.

(** The database gone, [getTodo] writes to the console and throws what
    [execute()] threw. *)
Example getTodo_store_failure :
  getTodo (GetTodoInput.mk 1) (set_online false (createDB 1000))
  = (Throw StoreFailure,
     mkWorld [] 1 false [SelectWhereId 1] 1000 ["Get todo failed:"]).
Proof. reflexivity. Qed.

(** ** [updateTodo] *)

(** C10: [updateTodo] returns [null] for every input and in every world,
    for the id of a stored row as for any other, and leaves the world as it
    is: no row is changed, and the journal shows that no statement was sent
    to the database, neither to read nor to write; the result does not
    depend on the world. *)
Theorem updateTodo_returns_null (input : UpdateTodoInput.t) (w : world) :
  updateTodo input w = (Return None, w)
  ∧ (∀ t, t ∈ rows w → UpdateTodoInput.id input = Todo.id t →
       fst (updateTodo input w) = Return None)
  ∧ rows (snd (updateTodo input w)) = rows w
  ∧ journal (snd (updateTodo input w)) = journal w
  ∧ (∀ w', fst (updateTodo input w') = fst (updateTodo input w)).
Proof. unfold updateTodo, resolve. simpl. repeat split. Qed.

(** C1: the test "should set description to null" stores a row and updates
    it with an explicit [null] description.  [updateTodo] answers [null],
    the not-found signal, for the id of the stored row, and the row keeps
    its description; the update of section 4.1 answers the row with its
    description cleared. *)
Theorem updateTodo_not_found_for_stored_id :
  let todo := Todo.mk 1 "Test Todo" (Some "Original description") false 1000 1000 in
  let input := UpdateTodoInput.mk 1 None (Some None) None in
  let w := snd (test_set_description_to_null (createDB 1000)) in
  fst (test_set_description_to_null (createDB 1000)) = Return (todo, None)
  ∧ rows w = [todo]
  ∧ fst (getTodo (GetTodoInput.mk 1) w) = Return (Some todo)
  ∧ fst (updateTodo input w) = Return None
  ∧ fst (spec_set_description_to_null (createDB 1000))
    = Return (todo, Some (Todo.mk 1 "Test Todo" None false 1000 1000)).
Proof. repeat split. Qed.

(** C3: the test "should always update timestamp even with no other
    changes" stores a row at time 1000, waits 10 ms and updates it with
    the id alone.  [updateTodo] answers [null] and the stored [updated_at]
    stays 1000; the update of section 4.1 answers the row with
    [updated_at] 1010. *)
Theorem updateTodo_leaves_updated_at :
  let todo := Todo.mk 1 "Test Todo" None false 1000 1000 in
  let w := snd (test_always_update_timestamp (createDB 1000)) in
  fst (test_always_update_timestamp (createDB 1000)) = Return (todo, None)
  ∧ clock w = 1010
  ∧ Todo.updated_at <$> rows w = [1000]
  ∧ fst (spec_always_update_timestamp (createDB 1000))
    = Return (todo, Some (Todo.mk 1 "Test Todo" None false 1000 1010)).
Proof. repeat split. Qed.

(** ** Validation of the title *)

Lemma length_lt_1 (s : string) : (String.length s <? 1)%nat = true ↔ s = "".
Proof. destruct s; simpl; split; (done || discriminate). Qed.

Lemma title_schema (s : string) :
  z.min 1 "Title is required" z.string "title" (JStr s)
  = if decide (s = "") then Failure [too_small "title" "Title is required"]
    else Success s.
Proof. unfold z.min, z.string. destruct s; by case_decide. Qed.

Lemma description_schema (v : jsval) :
  description_typed v →
  z.optional (z.nullable z.string) "description" v = Success (description_of v).
Proof. by destruct v. Qed.

Lemma completed_schema (v : jsval) :
  completed_typed v →
  z.optional z.boolean "completed" v = Success (completed_of v).
Proof. by destruct v. Qed.

(** A parse fails as soon as one key has an issue. *)
Lemma field_issue {A B} o k (s : zod A) (rest : parsed (A → B)) iss :
  s k (prop o k) = Failure iss →
  ∃ iss', z.field o k s rest = Failure iss' ∧ iss ⊆ iss'.
Proof.
  intros Hk. unfold z.field. rewrite Hk.
  destruct rest; eexists; (split; [done|]); set_solver.
Qed.

Lemma field_rest_issue {A B} o k (s : zod A) (rest : parsed (A → B)) iss :
  rest = Failure iss →
  ∃ iss', z.field o k s rest = Failure iss' ∧ iss ⊆ iss'.
Proof.
  intros ->. unfold z.field.
  destruct (s k (prop o k)); eexists; (split; [done|]); set_solver.
Qed.

Lemma field_success {A B} o k (s : zod A) (rest : parsed (A → B)) f a :
  rest = Success f → s k (prop o k) = Success a →
  z.field o k s rest = Success (f a).
Proof. intros -> Hk. unfold z.field. by rewrite Hk. Qed.

Lemma field_inv {A B} o k (s : zod A) (rest : parsed (A → B)) b :
  z.field o k s rest = Success b →
  ∃ f a, rest = Success f ∧ s k (prop o k) = Success a ∧ b = f a.
Proof.
  unfold z.field. destruct rest as [f|], (s k (prop o k)) as [a|]; try done.
  intros [= <-]. eauto.
Qed.

Lemma createTodoInputSchema_accepts (o : gmap string jsval) (s : string) :
  prop o "title" = JStr s → s ≠ "" →
  description_typed (prop o "description") →
  createTodoInputSchema o
  = Success (CreateTodoInput.mk s (description_of (prop o "description"))).
Proof.
  intros Ht Hne Hd. unfold createTodoInputSchema.
  apply field_success; [|by apply description_schema].
  apply field_success; [done|].
  rewrite Ht, title_schema. by rewrite decide_False.
Qed.

Lemma createTodoInputSchema_empty_title (o : gmap string jsval) :
  prop o "title" = JStr "" →
  ∃ iss, createTodoInputSchema o = Failure iss
         ∧ too_small "title" "Title is required" ∈ iss.
Proof.
  intros Ht. unfold createTodoInputSchema.
  destruct (field_issue o "title" (z.min 1 "Title is required" z.string)
              (Success CreateTodoInput.mk) [too_small "title" "Title is required"])
    as (iss1 & H1 & Hin1); [by rewrite Ht|].
  destruct (field_rest_issue o "description"
              (z.optional (z.nullable z.string)) _ _ H1) as (iss2 & -> & Hin2).
  exists iss2. split; [done|]. set_solver.
Qed.

Lemma updateTodoInputSchema_empty_title (o : gmap string jsval) :
  prop o "title" = JStr "" →
  ∃ iss, updateTodoInputSchema o = Failure iss
         ∧ too_small "title" "Title is required" ∈ iss.
Proof.
  intros Ht. unfold updateTodoInputSchema.
  destruct (field_issue o "title" (z.optional (z.min 1 "Title is required" z.string))
              (z.field o "id" z.number (Success UpdateTodoInput.mk))
              [too_small "title" "Title is required"])
    as (iss1 & H1 & Hin1); [by rewrite Ht|].
  destruct (field_rest_issue o "description"
              (z.optional (z.nullable z.string)) _ _ H1) as (iss2 & H2 & Hin2).
  destruct (field_rest_issue o "completed"
              (z.optional z.boolean) _ _ H2) as (iss3 & -> & Hin3).
  exists iss3. split; [done|]. set_solver.
Qed.

(** C2, as it is stated, fails: a title of three spaces is empty once
    trimmed, the creation form does not submit it, and both schemas accept
    it as it is. *)
Lemma blank_title_passes_validation :
  trim "   " = ""
  ∧ handleSubmit_submits (CreateTodoInput.mk "   " None) = false
  ∧ createTodoInputSchema (obj [("title", JStr "   ")])
    = Success (CreateTodoInput.mk "   " None)
  ∧ updateTodoInputSchema (obj [("id", JNum 1); ("title", JStr "   ")])
    = Success (UpdateTodoInput.mk 1 (Some "   ") None None)
  ∧ fst (trpc.createTodo (obj [("title", JStr "   ")]) (createDB 1000))
    = Return (Todo.mk 1 "   " None false 1000 1000).
Proof. repeat split. Qed.

(** C2, amended: a title that is the empty string is rejected with a
    validation error, by create and by an update whose patch has the title,
    and the world stays as it is.  A title that is not the empty string, a
    title of white space included, is not rejected: the schemas do not trim,
    and the handler receives the title as it was sent. *)
Theorem empty_title_rejected (o : gmap string jsval) (s : string) (w : world) :
  prop o "title" = JStr s →
  (s = "" →
     (∃ iss, trpc.createTodo o w = (Throw (ValidationError iss), w)
             ∧ too_small "title" "Title is required" ∈ iss)
     ∧ (∃ iss, trpc.updateTodo o w = (Throw (ValidationError iss), w)
               ∧ too_small "title" "Title is required" ∈ iss))
  ∧ (s ≠ "" →
     (description_typed (prop o "description") →
        createTodoInputSchema o
        = Success (CreateTodoInput.mk s (description_of (prop o "description")))
        ∧ trpc.createTodo o w
          = createTodo (CreateTodoInput.mk s (description_of (prop o "description"))) w)
     ∧ (∀ i, prop o "id" = JNum i →
        description_typed (prop o "description") →
        completed_typed (prop o "completed") →
        updateTodoInputSchema o
        = Success (UpdateTodoInput.mk i (Some s)
                     (description_of (prop o "description"))
                     (completed_of (prop o "completed")))))
  ∧ (∀ input, createTodoInputSchema o = Success input →
       CreateTodoInput.title input = s)
  ∧ (∀ input, updateTodoInputSchema o = Success input →
       UpdateTodoInput.title input = Some s).
Proof.
  intros Ht.
  assert (Hc : z.min 1 "Title is required" z.string "title" (prop o "title")
             = if decide (s = "") then Failure [too_small "title" "Title is required"]
               else Success s) by (rewrite Ht; apply title_schema).
  assert (Hu : z.optional (z.min 1 "Title is required" z.string) "title" (prop o "title")
             = if decide (s = "") then Failure [too_small "title" "Title is required"]
               else Success (Some s)).
  { rewrite Ht. unfold z.optional. rewrite title_schema. by case_decide. }
  split; [|split; [|split]].
  - intros ->. split.
    + destruct (createTodoInputSchema_empty_title o Ht) as (iss & Hs & Hin).
      exists iss. unfold trpc.createTodo, procedure. by rewrite Hs.
    + destruct (updateTodoInputSchema_empty_title o Ht) as (iss & Hs & Hin).
      exists iss. unfold trpc.updateTodo, procedure. by rewrite Hs.
  - intros Hne. rewrite decide_False in Hc by done.
    rewrite decide_False in Hu by done. split.
    + intros Hd.
      pose proof (createTodoInputSchema_accepts o s Ht Hne Hd) as Hs.
      split; [done|]. unfold trpc.createTodo, procedure. by rewrite Hs.
    + intros i Hi Hd Hcm. unfold updateTodoInputSchema.
      apply field_success; [|by apply completed_schema].
      apply field_success; [|by apply description_schema].
      apply field_success; [|done].
      apply field_success; [done|]. by rewrite Hi.
  - intros input (f & d & (g & t & [= <-] & Htitle & ->)%field_inv & _ & ->)%field_inv.
    rewrite Hc in Htitle. simpl. case_decide; congruence.
  - intros input (f & c & (g & d & (h & t & Hid & Htitle & ->)%field_inv
                           & _ & ->)%field_inv & _ & ->)%field_inv.
    apply field_inv in Hid as (k & i & [= <-] & _ & ->).
    rewrite Hu in Htitle. simpl. case_decide; congruence.
Qed.

Lemma empty_title_rejected_witness :
  prop (obj [("id", JNum 1); ("title", JStr "")]) "title" = JStr ""
  ∧ (∃ iss, trpc.createTodo (obj [("id", JNum 1); ("title", JStr "")]) (createDB 1000)
            = (Throw (ValidationError iss), createDB 1000)
            ∧ too_small "title" "Title is required" ∈ iss)
  ∧ (∃ iss, trpc.updateTodo (obj [("id", JNum 1); ("title", JStr "")]) (createDB 1000)
            = (Throw (ValidationError iss), createDB 1000)
            ∧ too_small "title" "Title is required" ∈ iss).
Proof.
  split; [reflexivity|].
  apply (empty_title_rejected (obj [("id", JNum 1); ("title", JStr "")]) ""
           (createDB 1000)); reflexivity.
Defined.

(** ** [createTodo] *)

Lemma insert_returning_online title description completed (w : world) :
  online w = true →
  let row := Todo.mk (next_id w) title description completed (clock w) (clock w) in
  insert_returning title description completed w
  = (Return row,
     set_next_id (λ n, n + 1)
       (set_rows (λ l, l ++ [row])
          (set_journal (cons (InsertReturning title description completed)) w))).
Proof. intros Hon. unfold insert_returning. by rewrite execute_online. Qed.

Lemma insert_returning_offline title description completed (w : world) :
  online w = false →
  insert_returning title description completed w
  = (Throw StoreFailure,
     set_journal (cons (InsertReturning title description completed)) w).
Proof. intros Hoff. unfold insert_returning. by rewrite execute_offline. Qed.

Lemma createTodo_online (input : CreateTodoInput.t) (w : world) :
  online w = true →
  let title := CreateTodoInput.title input in
  let description := or_null (CreateTodoInput.description input) in
  let row := Todo.mk (next_id w) title description false (clock w) (clock w) in
  createTodo input w
  = (Return row,
     set_next_id (λ n, n + 1)
       (set_rows (λ l, l ++ [row])
          (set_journal (cons (InsertReturning title description false)) w))).
Proof. intros Hon. unfold createTodo. by rewrite insert_returning_online. Qed.

Lemma createTodo_offline (input : CreateTodoInput.t) (w : world) :
  online w = false →
  createTodo input w
  = (Throw StoreFailure,
     set_journal (cons (InsertReturning (CreateTodoInput.title input)
                          (or_null (CreateTodoInput.description input)) false)) w).
Proof. intros Hoff. unfold createTodo. by rewrite insert_returning_offline. Qed.

Lemma or_null_not_empty (d : option (option string)) : or_null d ≠ Some "".
Proof. by destruct d as [[[|c s]|]|]. Qed.

Lemma keyed_insert (w : world) (t : Todo.t) :
  keyed w → Todo.id t = next_id w →
  keyed (set_next_id (λ n, n + 1) (set_rows (λ l, l ++ [t]) w)).
Proof.
  intros [Hnd Hlt] Hid. unfold keyed, ids in *. simpl. split.
  - rewrite fmap_app. simpl. apply NoDup_app. split; [done|]. split.
    + intros i (t' & -> & Ht')%list_elem_of_fmap Hi.
      apply list_elem_of_singleton in Hi.
      rewrite Forall_forall in Hlt. specialize (Hlt t' Ht'). lia.
    + apply NoDup_singleton.
  - apply Forall_app. split.
    + eapply Forall_impl; [done|]. simpl. intros; lia.
    + apply Forall_singleton. lia.
Qed.

Lemma next_id_fresh (w : world) : keyed w → next_id w ∉ ids w.
Proof.
  intros [_ Hlt] (t & Hid & Ht)%list_elem_of_fmap.
  rewrite Forall_forall in Hlt. specialize (Hlt t Ht). lia.
Qed.

(** C5: a request to create with a title that passes validation, and with
    the description omitted, [null] or empty, returns a Todo that has the
    title, [completed = false], the description [null], and both timestamps
    equal to the current time; its id is the next of the sequence and is the
    id of no stored row; the row is added to the table as it is returned.
    Whatever the description, the empty string is never stored for it. *)
Theorem createTodo_valid_title (o : gmap string jsval) (s : string) (w : world) :
  prop o "title" = JStr s →
  s ≠ "" →
  description_typed (prop o "description") →
  online w = true →
  keyed w →
  ∃ t w',
    trpc.createTodo o w = (Return t, w')
    ∧ Todo.title t = s
    ∧ Todo.completed t = false
    ∧ (prop o "description" ∈ [JUndefined; JNull; JStr ""] → Todo.description t = None)
    ∧ (∀ d, prop o "description" = JStr d → d ≠ "" → Todo.description t = Some d)
    ∧ Todo.description t ≠ Some ""
    ∧ Todo.created_at t = clock w
    ∧ Todo.updated_at t = Todo.created_at t
    ∧ Todo.id t = next_id w
    ∧ (Todo.id t ∉ ids w)
    ∧ rows w' = rows w ++ [t]
    ∧ NoDup (ids w')
    ∧ keyed w'.
Proof.
  intros Ht Hne Hd Hon Hk.
  unfold trpc.createTodo, procedure.
  rewrite (createTodoInputSchema_accepts o s Ht Hne Hd).
  rewrite createTodo_online by done. simpl.
  eexists _, _. split; [reflexivity|]. simpl.
  assert (Hk' := keyed_insert w
    (Todo.mk (next_id w) s (or_null (description_of (prop o "description")))
       false (clock w) (clock w)) Hk eq_refl).
  repeat split; try done.
  - intros Hin. repeat (apply elem_of_cons in Hin as [->|Hin]); try done.
    by apply not_elem_of_nil in Hin.
  - intros d -> Hd'. simpl. by destruct d.
  - apply or_null_not_empty.
  - by apply next_id_fresh.
  - apply Hk'.
  - apply Hk'.
  - apply Hk'.
Qed.

Lemma createTodo_valid_title_witness :
  prop (obj [("title", JStr "Buy milk")]) "title" = JStr "Buy milk"
  ∧ "Buy milk" ≠ ""
  ∧ ∃ t w',
    trpc.createTodo (obj [("title", JStr "Buy milk")]) (createDB 1000) = (Return t, w')
    ∧ Todo.title t = "Buy milk"
    ∧ Todo.completed t = false
    ∧ (prop (obj [("title", JStr "Buy milk")]) "description"
         ∈ [JUndefined; JNull; JStr ""] → Todo.description t = None)
    ∧ (∀ d, prop (obj [("title", JStr "Buy milk")]) "description" = JStr d →
         d ≠ "" → Todo.description t = Some d)
    ∧ Todo.description t ≠ Some ""
    ∧ Todo.created_at t = clock (createDB 1000)
    ∧ Todo.updated_at t = Todo.created_at t
    ∧ Todo.id t = next_id (createDB 1000)
    ∧ (Todo.id t ∉ ids (createDB 1000))
    ∧ rows w' = rows (createDB 1000) ++ [t]
    ∧ NoDup (ids w')
    ∧ keyed w'.
Proof.
  split; [reflexivity|]. split; [discriminate|].
  apply (createTodo_valid_title (obj [("title", JStr "Buy milk")]) "Buy milk"
           (createDB 1000)).
  - reflexivity.
  - discriminate.
  - exact I.
  - reflexivity.
  - split; [apply NoDup_nil_2|apply Forall_nil_2].
Defined.

(** ** [deleteTodo] *)

Lemma deleteTodo_online (i : Z) (w : world) :
  online w = true →
  deleteTodo (DeleteTodoInput.mk i) w
  = (Return (0 <? length (with_id i (rows w)))%nat,
     set_rows (filter (λ t, Todo.id t ≠ i)) (set_journal (cons (DeleteWhereId i)) w)).
Proof.
  intros Hon. unfold deleteTodo, await. simpl. by rewrite execute_online.
Qed.

Lemma deleteTodo_offline (i : Z) (w : world) :
  online w = false →
  deleteTodo (DeleteTodoInput.mk i) w
  = (Throw StoreFailure, set_journal (cons (DeleteWhereId i)) w).
Proof.
  intros Hoff. unfold deleteTodo, await. simpl. by rewrite execute_offline.
Qed.

Lemma keyed_filter (P : Todo.t → Prop) `{∀ t, Decision (P t)} (w : world) :
  keyed w → keyed (set_rows (filter P) w).
Proof.
  intros [Hnd Hlt]. unfold keyed, ids in *. simpl. split.
  - eapply sublist_NoDup; [done|]. apply fmap_sublist, sublist_filter.
  - rewrite Forall_forall in Hlt |- *.
    intros t [_ Ht]%list_elem_of_filter. auto.
Qed.



(** ** [getTodos] *)

Global Instance newer_first_total : Total newer_first.
Proof. intros a b. unfold newer_first. lia. Qed.

Global Instance newer_first_trans : Transitive newer_first.
Proof. intros a b c. unfold newer_first. lia. Qed.

Lemma same_id_same_row (l : list Todo.t) (a b : Todo.t) :
  NoDup (Todo.id <$> l) → a ∈ l → b ∈ l → Todo.id a = Todo.id b → a = b.
Proof.
  intros Hnd Ha Hb Hid.
  pose proof (with_id_unique l a Hnd Ha) as Hwa.
  pose proof (with_id_unique l b Hnd Hb) as Hwb.
  rewrite Hid, Hwb in Hwa. by injection Hwa.
Qed.

Lemma StronglySorted_lookup {A} (R : relation A) (l : list A) i j a b :
  StronglySorted R l → l !! i = Some a → l !! j = Some b → (i < j)%nat → R a b.
Proof.
  intros Hl. revert i j. induction Hl as [|x l Hl IH Hx]; intros i j Hi Hj Hij.
  - by rewrite lookup_nil in Hi.
  - destruct j as [|j]; [lia|]. simpl in Hj. destruct i as [|i].
    + injection Hi as ->. rewrite Forall_forall in Hx.
      apply Hx. by eapply list_elem_of_lookup_2.
    + simpl in Hi. apply (IH i j); [done|done|lia].
Qed.

Lemma getTodos_online (w : world) :
  online w = true →
  getTodos w
  = (Return (merge_sort newer_first (rows w)), set_journal (cons SelectOrdered) w).
Proof. intros Hon. unfold getTodos. by rewrite execute_online. Qed.

(** C4: with the database answering, [getTodos] returns the stored rows,
    all of them and each once, newest-created first and, among rows created
    at the same time, by descending id.  No two rows tie, so the result does
    not depend on the order the table holds its rows in.  Of an empty table
    the result is the empty list, and not an error. *)
Theorem getTodos_newest_first (w : world) :
  online w = true →
  keyed w →
  ∃ l,
    getTodos w = (Return l, set_journal (cons SelectOrdered) w)
    ∧ l ≡ₚ rows w
    ∧ (∀ i j a b, l !! i = Some a → l !! j = Some b → (i < j)%nat →
         Todo.created_at b < Todo.created_at a
         ∨ (Todo.created_at a = Todo.created_at b ∧ Todo.id b < Todo.id a))
    ∧ (∀ w2, online w2 = true → rows w2 ≡ₚ rows w → fst (getTodos w2) = Return l)
    ∧ (rows w = [] → l = []).
Proof.
  intros Hon [Hnd _]. rewrite getTodos_online by done.
  exists (merge_sort newer_first (rows w)).
  pose proof (merge_sort_Permutation newer_first (rows w)) as Hperm.
  pose proof (StronglySorted_merge_sort newer_first (rows w)) as Hsorted.
  split; [done|]. split; [done|]. split; [|split].
  - intros i j a b Hi Hj Hij.
    pose proof (StronglySorted_lookup _ _ i j a b Hsorted Hi Hj Hij) as [Hlt|[Heq Hle]];
      [by left|right].
    split; [done|].
    assert (Hnd' : NoDup (Todo.id <$> merge_sort newer_first (rows w)))
      by (by rewrite Hperm).
    assert (Todo.id a ≠ Todo.id b); [|lia].
    intros Hid.
    assert ((Todo.id <$> merge_sort newer_first (rows w)) !! i = Some (Todo.id a))
      as Hi' by (by rewrite list_lookup_fmap, Hi).
    assert ((Todo.id <$> merge_sort newer_first (rows w)) !! j = Some (Todo.id a))
      as Hj' by (by rewrite list_lookup_fmap, Hj, Hid).
    pose proof (NoDup_lookup _ i j _ Hnd' Hi' Hj'). lia.
  - intros w2 Hon2 Hperm2. rewrite getTodos_online by done. simpl. f_equal.
    apply StronglySorted_unique_strong with (R := newer_first).
    + intros a b Ha Hb Hab Hba.
      rewrite merge_sort_Permutation in Ha, Hb. rewrite Hperm2 in Ha.
      apply (same_id_same_row (rows w)); [done..|].
      unfold newer_first in *. lia.
    + apply StronglySorted_merge_sort; apply _.
    + done.
    + by rewrite !merge_sort_Permutation.
  - by intros ->.
Qed.

Lemma getTodos_newest_first_witness :
  let w := snd ((createTodo (CreateTodoInput.mk "A" None) ;;!
                 createTodo (CreateTodoInput.mk "B" None)) (createDB 1000)) in
  online w = true
  ∧ keyed w
  ∧ ∃ l,
    getTodos w = (Return l, set_journal (cons SelectOrdered) w)
    ∧ l ≡ₚ rows w
    ∧ (∀ i j a b, l !! i = Some a → l !! j = Some b → (i < j)%nat →
         Todo.created_at b < Todo.created_at a
         ∨ (Todo.created_at a = Todo.created_at b ∧ Todo.id b < Todo.id a))
    ∧ (∀ w2, online w2 = true → rows w2 ≡ₚ rows w → fst (getTodos w2) = Return l)
    ∧ (rows w = [] → l = []).
Proof.
  set (w := snd ((createTodo (CreateTodoInput.mk "A" None) ;;!
                  createTodo (CreateTodoInput.mk "B" None)) (createDB 1000))).
  assert (Hk : keyed w).
  { split.
    - apply (NoDup_cons_2 1 [2]); [|apply NoDup_singleton].
      intros Hin%list_elem_of_singleton. discriminate.
    - apply Forall_cons_2; [simpl; lia|]. apply Forall_singleton. simpl. lia. }
  split; [reflexivity|]. split; [exact Hk|].
  exact (getTodos_newest_first w eq_refl Hk).
Defined.

(** The two rows of the witness were created at the same time: the one
    with the greater id comes first. *)
Example getTodos_tie :
  fst ((createTodo (CreateTodoInput.mk "A" None) ;;!
        createTodo (CreateTodoInput.mk "B" None) ;;!
        getTodos) (createDB 1000))
  = Return [Todo.mk 2 "B" None false 1000 1000; Todo.mk 1 "A" None false 1000 1000].
Proof. reflexivity. Qed.

(** ** What the requests do to the table *)

Lemma createTodo_rows (input : CreateTodoInput.t) (w : world) :
  rows (snd (createTodo input w))
  = if online w
    then rows w ++ [Todo.mk (next_id w) (CreateTodoInput.title input)
                      (or_null (CreateTodoInput.description input))
                      false (clock w) (clock w)]
    else rows w.
Proof.
  destruct (online w) eqn:Hon.
  - by rewrite createTodo_online.
  - by rewrite createTodo_offline.
Qed.

Lemma deleteTodo_rows (input : DeleteTodoInput.t) (w : world) :
  rows (snd (deleteTodo input w))
  = if online w
    then filter (λ t, Todo.id t ≠ DeleteTodoInput.id input) (rows w)
    else rows w.
Proof.
  destruct input as [i]. destruct (online w) eqn:Hon.
  - by rewrite deleteTodo_online.
  - by rewrite deleteTodo_offline.
Qed.

Lemma getTodo_rows (input : GetTodoInput.t) (w : world) :
  rows (snd (getTodo input w)) = rows w.
Proof.
  destruct input as [i]. destruct (online w) eqn:Hon.
  - destruct (int4 i) eqn:Hi.
    + by rewrite getTodo_online.
    + by rewrite getTodo_out_of_range.
  - by rewrite getTodo_offline.
Qed.

Lemma getTodos_rows (w : world) : rows (snd (getTodos w)) = rows w.
Proof. unfold getTodos, execute. simpl. by destruct (online w). Qed.

Lemma procedure_world {I O} (schema : gmap string jsval → parsed I)
    (handler : I → promise O) (raw : gmap string jsval) (w : world) :
  snd (procedure schema handler raw w) = w
  ∨ ∃ input, schema raw = Success input
             ∧ procedure schema handler raw w = handler input w.
Proof. unfold procedure. destruct (schema raw); eauto. Qed.

(** A request changes the world as its handler does, or not at all. *)
Lemma serve_cases (r : request) (w : world) :
  serve r w = w
  ∨ (∃ input, serve r w = snd (createTodo input w))
  ∨ (∃ input, serve r w = snd (getTodo input w))
  ∨ serve r w = snd (getTodos w)
  ∨ (∃ input, serve r w = snd (deleteTodo input w)).
Proof.
  destruct r as [raw|raw| |raw|raw]; simpl.
  - destruct (procedure_world createTodoInputSchema createTodo raw w)
      as [Hw|(input & _ & Hw)]; [by left|].
    right; left. exists input. unfold trpc.createTodo. by rewrite Hw.
  - destruct (procedure_world getTodoInputSchema getTodo raw w)
      as [Hw|(input & _ & Hw)]; [by left|].
    right; right; left. exists input. unfold trpc.getTodo. by rewrite Hw.
  - by right; right; right; left.
  - left. by destruct (procedure_world updateTodoInputSchema updateTodo raw w)
      as [Hw|(input & _ & Hw)]; [|unfold trpc.updateTodo; rewrite Hw].
  - destruct (procedure_world deleteTodoInputSchema deleteTodo raw w)
      as [Hw|(input & _ & Hw)]; [by left|].
    right; right; right; right. exists input. unfold trpc.deleteTodo. by rewrite Hw.
Qed.

Lemma insert_returning_ordered title description completed (w : world) :
  timestamps_ordered w →
  timestamps_ordered (snd (insert_returning title description completed w)).
Proof.
  unfold timestamps_ordered. intros Hw. destruct (online w) eqn:Hon.
  - rewrite insert_returning_online by done. simpl.
    apply Forall_app. split; [done|]. apply Forall_singleton. simpl. lia.
  - by rewrite insert_returning_offline.
Qed.

Lemma createTodo_ordered (input : CreateTodoInput.t) (w : world) :
  timestamps_ordered w → timestamps_ordered (snd (createTodo input w)).
Proof. apply insert_returning_ordered. Qed.

Lemma insert_returning_keyed title description completed (w : world) :
  keyed w → keyed (snd (insert_returning title description completed w)).
Proof.
  intros Hk. destruct (online w) eqn:Hon.
  - rewrite insert_returning_online by done. simpl.
    by apply (keyed_insert (set_journal _ w)).
  - by rewrite insert_returning_offline.
Qed.

Lemma deleteTodo_ordered (input : DeleteTodoInput.t) (w : world) :
  timestamps_ordered w → timestamps_ordered (snd (deleteTodo input w)).
Proof.
  unfold timestamps_ordered. rewrite deleteTodo_rows.
  destruct (online w); [|done]. rewrite !Forall_forall.
  intros Hw t [_ Ht]%list_elem_of_filter. auto.
Qed.

Lemma serve_ordered (r : request) (w : world) :
  timestamps_ordered w → timestamps_ordered (serve r w).
Proof.
  intros Hord.
  destruct (serve_cases r w) as [->|[[input ->]|[[input ->]|[->|[input ->]]]]].
  - done.
  - by apply createTodo_ordered.
  - unfold timestamps_ordered. by rewrite getTodo_rows.
  - unfold timestamps_ordered. by rewrite getTodos_rows.
  - by apply deleteTodo_ordered.
Qed.

Lemma reachable_ordered (w : world) : reachable w → timestamps_ordered w.
Proof.
  induction 1 as [now|r w _ IH|title description completed w _ IH
                  |ms w _ _ IH|b w _ IH].
  - apply Forall_nil_2.
  - by apply serve_ordered.
  - by apply insert_returning_ordered.
  - done.
  - done.
Qed.

Lemma serve_keyed (r : request) (w : world) : keyed w → keyed (serve r w).
Proof.
  intros Hk.
  destruct (serve_cases r w) as [->|[[input ->]|[[input ->]|[->|[input ->]]]]].
  - done.
  - by apply insert_returning_keyed.
  - destruct input as [i]. destruct (online w) eqn:Hon.
    + destruct (int4 i) eqn:Hi.
      * by rewrite getTodo_online.
      * by rewrite getTodo_out_of_range.
    + by rewrite getTodo_offline.
  - unfold getTodos, execute. simpl. by destruct (online w).
  - destruct input as [i]. destruct (online w) eqn:Hon.
    + rewrite deleteTodo_online by done.
      by apply (keyed_filter _ (set_journal _ w)).
    + by rewrite deleteTodo_offline.
Qed.

(** In every world that can be reached, the table is keyed. *)
Lemma reachable_keyed (w : world) : reachable w → keyed w.
Proof.
  induction 1 as [now|r w _ IH|title description completed w _ IH
                  |ms w _ _ IH|b w _ IH].
  - split; [apply NoDup_nil_2|apply Forall_nil_2].
  - by apply serve_keyed.
  - by apply insert_returning_keyed.
  - done.
  - done.
Qed.

(** C8: [created_at <= updated_at] holds of every row of every world that
    can be reached, and each of create, update and delete, as a handler and
    as a request, keeps it true of the table. *)
Theorem created_at_le_updated_at (w : world) :
  (reachable w → ∀ t, t ∈ rows w → Todo.created_at t ≤ Todo.updated_at t)
  ∧ (timestamps_ordered w →
       (∀ input, timestamps_ordered (snd (createTodo input w)))
       ∧ (∀ input, timestamps_ordered (snd (updateTodo input w)))
       ∧ (∀ input, timestamps_ordered (snd (deleteTodo input w)))
       ∧ (∀ r, timestamps_ordered (serve r w))).
Proof.
  split.
  - intros Hr%reachable_ordered. by apply Forall_forall.
  - intros Hord. repeat split.
    + intros input. by apply createTodo_ordered.
    + done.
    + intros input. by apply deleteTodo_ordered.
    + intros r. by apply serve_ordered.
Qed.

Lemma created_at_le_updated_at_witness :
  let w := serve (UpdateTodo (obj [("id", JNum 1); ("completed", JBool true)]))
             (snd (sleep 10
                (serve (CreateTodo (obj [("title", JStr "Buy milk")]))
                   (createDB 1000)))) in
  rows w = [Todo.mk 1 "Buy milk" None false 1000 1000]
  ∧ ∀ t, t ∈ rows w → Todo.created_at t ≤ Todo.updated_at t.
Proof.
  split; [reflexivity|].
  apply (created_at_le_updated_at
           (serve (UpdateTodo (obj [("id", JNum 1); ("completed", JBool true)]))
              (snd (sleep 10
                 (serve (CreateTodo (obj [("title", JStr "Buy milk")]))
                    (createDB 1000)))))).
  apply reachable_serve, reachable_sleep; [lia|].
  apply reachable_serve, reachable_createDB.
Defined.

(** ** Rejected requests *)





(** The three requests of section 8: the first and the third are rejected;
    the second, a title of three spaces, is not, and a row is stored. *)
Example validation_requests :
  let w := snd (trpc.createTodo (obj [("title", JStr "Buy milk")]) (createDB 1000)) in
  trpc.createTodo (obj [("title", JStr "")]) w
  = (Throw (ValidationError [too_small "title" "Title is required"]), w)
  ∧ trpc.updateTodo (obj [("id", JNum 1); ("title", JStr "")]) w
    = (Throw (ValidationError [too_small "title" "Title is required"]), w)
  ∧ fst (trpc.createTodo (obj [("title", JStr "   ")]) w)
    = Return (Todo.mk 2 "   " None false 1000 1000).
Proof. repeat split. Qed.

(** * Further properties of the code *)

(** ** The schemas, key by key *)

Lemma title_schema_inv (v : jsval) (s : string) :
  z.min 1 "Title is required" z.string "title" v = Success s ↔ v = JStr s ∧ s ≠ "".
Proof.
  split.
  - destruct v as [| | | |s']; try done. rewrite title_schema.
    case_decide; [done|]. by intros [= <-].
  - intros [-> Hne]. rewrite title_schema. by rewrite decide_False.
Qed.

Lemma description_schema_inv (v : jsval) (d : option (option string)) :
  z.optional (z.nullable z.string) "description" v = Success d
  ↔ description_typed v ∧ d = description_of v.
Proof.
  split.
  - destruct v; simpl; try done; by intros [= <-].
  - intros [Hv ->]. by apply description_schema.
Qed.

Lemma completed_schema_inv (v : jsval) (c : option bool) :
  z.optional z.boolean "completed" v = Success c
  ↔ completed_typed v ∧ c = completed_of v.
Proof.
  split.
  - destruct v; simpl; try done; by intros [= <-].
  - intros [Hv ->]. by apply completed_schema.
Qed.

Lemma number_schema_inv (k : string) (v : jsval) (n : Z) :
  z.number k v = Success n ↔ v = JNum n.
Proof. destruct v; simpl; split; try done; by intros [= <-]. Qed.

(** X1: [createTodoInputSchema] accepts an object exactly when its title is
    a string that is not empty and its description is absent, [null] or a
    string; the parsed value has that title, and the description in the
    state it was sent in. *)
Theorem createTodoInputSchema_success_iff (o : gmap string jsval)
    (input : CreateTodoInput.t) :
  createTodoInputSchema o = Success input
  ↔ ∃ s, prop o "title" = JStr s
         ∧ s ≠ ""
         ∧ description_typed (prop o "description")
         ∧ input = CreateTodoInput.mk s (description_of (prop o "description")).
Proof.
  split.
  - intros (f & d & (g & t & [= <-] & Ht & ->)%field_inv & Hd & ->)%field_inv.
    apply title_schema_inv in Ht as [Ht Hne].
    apply description_schema_inv in Hd as [Hd ->].
    by exists t.
  - intros (s & Ht & Hne & Hd & ->). by apply createTodoInputSchema_accepts.
Qed.

(** X2: [updateTodoInputSchema] accepts an object exactly when its id is a
    number, its title is absent or a string that is not empty (a [null]
    title is rejected), its description is absent, [null] or a string, and
    its flag is absent or a boolean; in the parsed value an absent key, a
    [null] description and a description with a value stay apart. *)
Theorem updateTodoInputSchema_success_iff (o : gmap string jsval)
    (input : UpdateTodoInput.t) :
  updateTodoInputSchema o = Success input
  ↔ ∃ i t, prop o "id" = JNum i
           ∧ ((prop o "title" = JUndefined ∧ t = None)
              ∨ ∃ s, prop o "title" = JStr s ∧ s ≠ "" ∧ t = Some s)
           ∧ description_typed (prop o "description")
           ∧ completed_typed (prop o "completed")
           ∧ input = UpdateTodoInput.mk i t (description_of (prop o "description"))
                       (completed_of (prop o "completed")).
Proof.
  split.
  - intros (f & c & (g & d & (h & t & Hid & Ht & ->)%field_inv
                     & Hd & ->)%field_inv & Hc & ->)%field_inv.
    apply field_inv in Hid as (k & i & [= <-] & Hid & ->).
    apply number_schema_inv in Hid.
    apply description_schema_inv in Hd as [Hd ->].
    apply completed_schema_inv in Hc as [Hc ->].
    exists i, t. split_and!; try done.
    unfold z.optional in Ht. destruct (prop o "title") as [| | | |s] eqn:Hp;
      try done.
    + left. by injection Ht as <-.
    + right. exists s. rewrite title_schema in Ht.
      case_decide; [done|]. by injection Ht as <-.
  - intros (i & t & Hid & Ht & Hd & Hc & ->). unfold updateTodoInputSchema.
    apply field_success; [|by apply completed_schema].
    apply field_success; [|by apply description_schema].
    apply field_success.
    + apply field_success; [done|]. by rewrite Hid.
    + destruct Ht as [[-> ->]|(s & -> & Hne & ->)]; [done|].
      unfold z.optional. rewrite title_schema. by rewrite decide_False.
Qed.

(** X3: [getTodoInputSchema] and [deleteTodoInputSchema] accept an object
    exactly when its id is a number, which is the id of the parsed value;
    any other object, one without the key included, is rejected with the one
    issue [invalid_type] at ["id"]. *)
Theorem id_schemas_success_iff (o : gmap string jsval) :
  (∀ input, getTodoInputSchema o = Success input
            ↔ prop o "id" = JNum (GetTodoInput.id input))
  ∧ (∀ input, deleteTodoInputSchema o = Success input
              ↔ prop o "id" = JNum (DeleteTodoInput.id input))
  ∧ ((∀ i, prop o "id" ≠ JNum i) →
       getTodoInputSchema o = Failure [invalid_type "id"]
       ∧ deleteTodoInputSchema o = Failure [invalid_type "id"]).
Proof.
  unfold getTodoInputSchema, deleteTodoInputSchema, z.field, z.number.
  split_and!.
  - intros [i]. simpl. destruct (prop o "id"); split; try done;
      by intros [= <-].
  - intros [i]. simpl. destruct (prop o "id"); split; try done;
      by intros [= <-].
  - intros Hid. destruct (prop o "id") as [| | |n|]; try done.
    by destruct (Hid n).
Qed.

(** ** [getTodo], in every world *)

(** X5: [getTodo] only reads.  In every world it sends one statement, the
    select, and leaves the rows, the sequence and the clock as they are.
    It throws exactly when the database does not answer or the id is
    outside the range of the key: it then throws the error of [execute()],
    after one line on the console; otherwise it returns and writes
    nothing. *)
Theorem getTodo_reads_only (i : Z) (w : world) :
  let r := fst (getTodo (GetTodoInput.mk i) w) in
  let w' := snd (getTodo (GetTodoInput.mk i) w) in
  rows w' = rows w
  ∧ next_id w' = next_id w
  ∧ clock w' = clock w
  ∧ online w' = online w
  ∧ journal w' = SelectWhereId i :: journal w
  ∧ (online w && int4 i = false →
       r = Throw StoreFailure ∧ console w' = "Get todo failed:" :: console w)
  ∧ (online w && int4 i = true → (∃ x, r = Return x) ∧ console w' = console w).
Proof.
  simpl. destruct (online w) eqn:Hon; [destruct (int4 i) eqn:Hi|].
  - rewrite getTodo_online by done. simpl. split_and!; try done. eauto.
  - rewrite getTodo_out_of_range by done. simpl. by split_and!.
  - rewrite getTodo_offline by done. simpl. by split_and!.
Qed.

(** X6: a row inserted by [createTestTodo] is the row that [getTodo] then
    returns for its id, the id being in the range of the key: it has the
    title of the input, the description of the input or [null] in its place
    when that is absent or empty, and is not completed.  For every other id
    [getTodo] answers as before the insert. *)
Theorem createTestTodo_getTodo (input : CreateTodoInput.t) (w : world) :
  online w = true →
  keyed w →
  ∃ todo w1,
    createTestTodo input w = (Return todo, w1)
    ∧ (int4 (Todo.id todo) = true →
         fst (getTodo (GetTodoInput.mk (Todo.id todo)) w1) = Return (Some todo))
    ∧ Todo.title todo = CreateTodoInput.title input
    ∧ Todo.description todo = or_null (CreateTodoInput.description input)
    ∧ Todo.description todo ≠ Some ""
    ∧ Todo.completed todo = false
    ∧ (∀ j, j ≠ Todo.id todo →
         fst (getTodo (GetTodoInput.mk j) w1) = fst (getTodo (GetTodoInput.mk j) w)).
Proof.
  intros Hon Hk. unfold createTestTodo.
  rewrite insert_returning_online by done. simpl.
  eexists _, _. split; [reflexivity|]. simpl.
  split_and!; try done.
  - intros Hi. rewrite getTodo_online by done. simpl. unfold with_id.
    rewrite filter_app, filter_cons_True, filter_nil by done.
    fold (with_id (next_id w) (rows w)).
    by rewrite with_id_absent by (by apply next_id_fresh).
  - apply or_null_not_empty.
  - intros j Hj. destruct (int4 j) eqn:Hi.
    + rewrite !getTodo_online by done. simpl. unfold with_id.
      rewrite filter_app, filter_cons_False, filter_nil by (simpl; congruence).
      by rewrite app_nil_r.
    + by rewrite !getTodo_out_of_range.
Qed.

Lemma createTestTodo_getTodo_witness :
  online (createDB 1000) = true
  ∧ keyed (createDB 1000)
  ∧ ∃ todo w1,
    createTestTodo (CreateTodoInput.mk "Test Todo" (Some (Some ""))) (createDB 1000)
    = (Return todo, w1)
    ∧ (int4 (Todo.id todo) = true →
         fst (getTodo (GetTodoInput.mk (Todo.id todo)) w1) = Return (Some todo))
    ∧ Todo.title todo = "Test Todo"
    ∧ Todo.description todo = None
    ∧ Todo.description todo ≠ Some ""
    ∧ Todo.completed todo = false
    ∧ (∀ j, j ≠ Todo.id todo →
         fst (getTodo (GetTodoInput.mk j) w1)
         = fst (getTodo (GetTodoInput.mk j) (createDB 1000))).
Proof.
  assert (Hk : keyed (createDB 1000))
    by (split; [apply NoDup_nil_2|apply Forall_nil_2]).
  split; [reflexivity|]. split; [exact Hk|].
  exact (createTestTodo_getTodo (CreateTodoInput.mk "Test Todo" (Some (Some "")))
           (createDB 1000) eq_refl Hk).
Defined.

(** ** The page and the schemas *)

Lemma trim_empty_title (s : string) : trim s ≠ "" → s ≠ "".
Proof. by intros Hs ->. Qed.

Lemma handleSubmit_submits_true (formData : CreateTodoInput.t) :
  handleSubmit_submits formData = true ↔ trim (CreateTodoInput.title formData) ≠ "".
Proof.
  unfold handleSubmit_submits. rewrite negb_true_iff.
  destruct (String.eqb_spec (trim (CreateTodoInput.title formData)) "");
    split; congruence.
Qed.

Lemma CreateTodoInput_object_parse (input : CreateTodoInput.t) :
  CreateTodoInput.title input ≠ "" →
  createTodoInputSchema (CreateTodoInput_object input) = Success input.
Proof.
  destruct input as [s d]. simpl. intros Hne.
  unfold CreateTodoInput_object. simpl.
  destruct d as [[d|]|];
    by rewrite (createTodoInputSchema_accepts _ s) by done.
Qed.

(** X7: a form that [handleSubmit] sends is never rejected by validation:
    past the guard the title is not empty, the schema of the procedure
    parses the object that is sent back into the very form data, and the
    handler of the server runs on it. *)
Theorem submitted_form_passes_validation (formData : CreateTodoInput.t) (w : world) :
  handleSubmit_submits formData = true →
  CreateTodoInput.title formData ≠ ""
  ∧ createTodoInputSchema (CreateTodoInput_object formData) = Success formData
  ∧ trpc.createTodo (CreateTodoInput_object formData) w = createTodo formData w.
Proof.
  intros Hs%handleSubmit_submits_true%trim_empty_title.
  pose proof (CreateTodoInput_object_parse formData Hs) as Hp.
  split_and!; try done.
  unfold trpc.createTodo, procedure. by rewrite Hp.
Qed.

Lemma submitted_form_passes_validation_witness :
  handleSubmit_submits (CreateTodoInput.mk " Buy milk " (Some None)) = true
  ∧ createTodoInputSchema
      (CreateTodoInput_object (CreateTodoInput.mk " Buy milk " (Some None)))
    = Success (CreateTodoInput.mk " Buy milk " (Some None)).
Proof.
  split; [reflexivity|].
  apply (submitted_form_passes_validation
           (CreateTodoInput.mk " Buy milk " (Some None)) (createDB 1000)).
  reflexivity.
Defined.

(** ** The handlers of the page *)

(** X9: past its guard, [handleSubmit] sends the form data to the server
    once and never throws.  When the server returns the new Todo, it is put
    at the head of the list and the form is reset to the empty title and the
    [null] description; when the request fails, the list and the form stay
    as they are and one line goes to the console.  Either way [isCreating]
    is [false] at the end. *)
Theorem handleSubmit_outcome (s : session) :
  handleSubmit_submits (App.formData (app s)) = true →
  let reply := trpc.createTodo (CreateTodoInput_object (App.formData (app s)))
                 (server s) in
  ∃ s', handleSubmit s = (Return (), s')
        ∧ server s' = snd reply
        ∧ App.isCreating (app s') = false
        ∧ App.isLoading (app s') = App.isLoading (app s)
        ∧ match fst reply with
          | Return response =>
              App.todos (app s') = response :: App.todos (app s)
              ∧ App.formData (app s') = CreateTodoInput.mk "" (Some None)
              ∧ browser_console s' = browser_console s
          | Throw _ =>
              App.todos (app s') = App.todos (app s)
              ∧ App.formData (app s') = App.formData (app s)
              ∧ browser_console s' = "Failed to create todo:" :: browser_console s
          end.
Proof.
  intros Hsub. simpl.
  unfold handleSubmit, task_await, getState. simpl. rewrite Hsub. simpl.
  unfold task_finally, task_catch, task_await, remote. simpl.
  destruct (trpc.createTodo _ _) as [[response|e] w']; simpl;
    eexists; (split; [reflexivity|]); simpl; by split_and!.
Qed.

Lemma handleSubmit_outcome_witness :
  let s := mkSession (App.mk [] false false (CreateTodoInput.mk "Buy milk" (Some None)))
             [] (createDB 1000) in
  handleSubmit_submits (App.formData (app s)) = true
  ∧ ∃ s', handleSubmit s = (Return (), s')
          ∧ App.todos (app s') = [Todo.mk 1 "Buy milk" None false 1000 1000]
          ∧ App.formData (app s') = CreateTodoInput.mk "" (Some None).
Proof.
  split; [reflexivity|].
  destruct (handleSubmit_outcome
              (mkSession (App.mk [] false false (CreateTodoInput.mk "Buy milk" (Some None)))
                 [] (createDB 1000)) eq_refl)
    as (s' & Hs' & _ & _ & _ & Htodos & Hform & _).
  exists s'. split; [exact Hs'|]. split; [exact Htodos|exact Hform].
Defined.

(** X11: [handleDelete] never throws.  It takes the todos with the id out
    of the list exactly when the server answers [true]; on [false] the page
    stays as it is, and on a failed request only a line is added to the
    console.  The form and the two flags are never touched. *)
Theorem handleDelete_outcome (todoId : Z) (s : session) :
  let reply := trpc.deleteTodo (obj [("id", JNum todoId)]) (server s) in
  ∃ s', handleDelete todoId s = (Return (), s')
        ∧ server s' = snd reply
        ∧ App.formData (app s') = App.formData (app s)
        ∧ App.isLoading (app s') = App.isLoading (app s)
        ∧ App.isCreating (app s') = App.isCreating (app s)
        ∧ match fst reply with
          | Return true =>
              App.todos (app s')
              = filter (λ t, Todo.id t ≠ todoId) (App.todos (app s))
              ∧ browser_console s' = browser_console s
          | Return false =>
              App.todos (app s') = App.todos (app s)
              ∧ browser_console s' = browser_console s
          | Throw _ =>
              App.todos (app s') = App.todos (app s)
              ∧ browser_console s' = "Failed to delete todo:" :: browser_console s
          end.
Proof.
  simpl. unfold handleDelete, task_catch, task_await, remote.
  destruct (trpc.deleteTodo _ _) as [[[|]|e] w']; simpl;
    eexists; (split; [reflexivity|]); simpl; by split_and!.
Qed.

(** X12: [loadTodos] never throws and ends with [isLoading = false].  When
    the server returns the todos they replace the list; when the request
    fails the list stays as it is and one line goes to the console. *)
Theorem loadTodos_outcome (s : session) :
  let reply := trpc.getTodos (server s) in
  ∃ s', loadTodos s = (Return (), s')
        ∧ server s' = snd reply
        ∧ App.isLoading (app s') = false
        ∧ App.isCreating (app s') = App.isCreating (app s)
        ∧ App.formData (app s') = App.formData (app s)
        ∧ match fst reply with
          | Return result =>
              App.todos (app s') = result
              ∧ browser_console s' = browser_console s
          | Throw _ =>
              App.todos (app s') = App.todos (app s)
              ∧ browser_console s' = "Failed to load todos:" :: browser_console s
          end.
Proof.
  simpl. unfold loadTodos, task_finally, task_catch, task_await, remote. simpl.
  destruct (trpc.getTodos _) as [[result|e] w']; simpl;
    eexists; (split; [reflexivity|]); simpl; by split_and!.
Qed.







(** X15: what is typed into the text area is what it shows: the empty
    text is stored as [null] and shown as the empty text, any other text is
    stored and shown as it is.  The title, the list and the server are not
    touched. *)
Theorem DescriptionChange_round_trip (value : string) (s : session) :
  let s' := snd (dispatch (DescriptionChange value) s) in
  textarea_value (app s') = value
  ∧ CreateTodoInput.description (App.formData (app s'))
    = Some (if decide (value = "") then None else Some value)
  ∧ CreateTodoInput.title (App.formData (app s'))
    = CreateTodoInput.title (App.formData (app s))
  ∧ App.todos (app s') = App.todos (app s)
  ∧ server s' = server s.
Proof. simpl. unfold textarea_value. simpl. by destruct value. Qed.

(** ** The counts of the page *)

Lemma completed_split (l : list Todo.t) :
  (length (filter (λ t, Todo.completed t = true) l)
   + length (filter (λ t, Todo.completed t = false) l) = length l)%nat.
Proof.
  induction l as [|t l IH]; [done|]. rewrite !filter_cons.
  destruct (Todo.completed t); repeat case_decide; simpl; try done; lia.
Qed.

Lemma none_incomplete (l : list Todo.t) :
  length (filter (λ t, Todo.completed t = false) l) = 0%nat
  ↔ Forall (λ t, Todo.completed t = true) l.
Proof.
  induction l as [|t l IH]; [done|]. rewrite filter_cons, Forall_cons.
  destruct (Todo.completed t); case_decide; simpl; try done.
  - rewrite IH. tauto.
  - split; [done|]. by intros [? _].
Qed.

(** X16: the counts and the footer.  [completedCount] never exceeds
    [totalCount], and their difference is the number of todos that are not
    completed.  The footer is absent exactly when the list is empty; it
    congratulates exactly when the list is not empty and every todo is
    completed; otherwise it shows the number of todos that are not
    completed, which is then positive, with "task" exactly for one.  The
    "No tasks yet" card is never shown with the footer, and while nothing
    loads exactly one of the two is shown. *)
Theorem render_footer_counts (a : App.t) :
  let remaining :=
    Z.of_nat (length (filter (λ t, Todo.completed t = false) (App.todos a))) in
  0 ≤ completedCount a ≤ totalCount a
  ∧ totalCount a - completedCount a = remaining
  ∧ (render_footer a = None ↔ App.todos a = [])
  ∧ (render_footer a = Some AllCompleted
     ↔ App.todos a ≠ [] ∧ Forall (λ t, Todo.completed t = true) (App.todos a))
  ∧ (∀ n noun, render_footer a = Some (Remaining n noun) →
       n = remaining ∧ 0 < n ∧ (noun = "task" ↔ n = 1))
  ∧ (render_empty a = true → render_footer a = None)
  ∧ (App.isLoading a = false → (render_empty a = true ↔ render_footer a = None)).
Proof.
  simpl. pose proof (completed_split (App.todos a)) as Hsplit.
  pose proof (none_incomplete (App.todos a)) as Hnone.
  assert (Hnil : length (App.todos a) = 0%nat ↔ App.todos a = [])
    by (by destruct (App.todos a)).
  unfold render_footer, render_empty, completedCount, totalCount.
  set (c := length (filter _ (App.todos a))) in *.
  set (r := length (filter _ (App.todos a))) in *.
  set (n := length (App.todos a)) in *.
  split_and!; try lia.
  - destruct (Z.ltb_spec 0 (Z.of_nat n)); split; try done.
    + intros Hl%Hnil. lia.
    + intros _. apply Hnil. lia.
  - destruct (Z.ltb_spec 0 (Z.of_nat n)) as [Hpos|Hzero]; simpl.
    + rewrite andb_true_r. destruct (Z.eqb_spec (Z.of_nat c) (Z.of_nat n)).
      * split; [intros _|done]. split; [rewrite <- Hnil; lia|].
        apply Hnone. lia.
      * split; [done|]. intros [_ Hall%Hnone]. lia.
    + split; [done|]. intros [Hne _]. destruct Hne. apply Hnil. lia.
  - intros m noun. destruct (Z.ltb_spec 0 (Z.of_nat n)) as [Hpos|Hzero]; [|done].
    simpl. rewrite andb_true_r.
    destruct (Z.eqb_spec (Z.of_nat c) (Z.of_nat n)); [done|].
    intros [= <- <-]. split_and!; try lia.
    destruct (Z.eqb_spec (Z.of_nat n - Z.of_nat c) 1); split; done.
  - intros [_ Hn%Nat.eqb_eq]%andb_true_iff.
    destruct (Z.ltb_spec 0 (Z.of_nat n)); [lia|done].
  - intros ->. simpl.
    destruct (Nat.eqb_spec n 0), (Z.ltb_spec 0 (Z.of_nat n)); split; try done; lia.
Qed.
